(** * js-redis-key-store: the id-association store over a Redis client

    A shallow embedding of [src/index.js].  The module keeps, for an
    integration id, the association between a Botmatic id and an external
    id as two Redis entries,

      [<integrationId>:b:<botmaticId>  ->  extId]
      [<integrationId>:e:<extId>       ->  botmaticId]

    and offers [saveIds], [getBotmaticId], [getExtId], [deleteIds] and
    [deleteAllIds] on top of the commands SET, GET, DEL and KEYS of the
    client handed to [init].

    Layout of the development:
    - [Js]: the JavaScript values that reach the module and the coercions
      the source applies to them;
    - [Glob]: the glob patterns of the KEYS command;
    - [Redis]: the client, as a state (the keyspace, the coming command
      errors) and its four commands with their node-style callbacks;
    - the key utilities (builders and readers) and the internal
      functions of [index.js], in the order of the source;
    - the properties. *)

From Stdlib Require Import ZArith Ascii String List Bool Lia.
From stdpp Require Import base tactics option list gmap strings.

Local Open Scope string_scope.
Local Open Scope Z_scope.

(** ** JavaScript values *)

Module Js.

(** The ids are documented as strings ([@param {string}]); a caller may
    also leave one out.  [Undefined] and [Null] are the two absent
    values of the language. *)
Inductive value : Type :=
| Undefined
| Null
| Str (s : string).

(** [ToString], as a template literal [`${v}`] applies it. *)
Definition to_string (v : value) : string :=
  match v with
  | Undefined => "undefined"
  | Null => "null"
  | Str s => s
  end.

(** Truthiness of a string in a condition: every string but the empty
    one. *)
Definition truthy (s : string) : bool :=
  match s with
  | EmptyString => false
  | String _ _ => true
  end.

(** A result that stands for "no value": what a lookup resolves to when
    nothing is stored ([null]) or when the reply never came
    ([undefined]). *)
Definition absent (v : value) : Prop :=
  match v with
  | Str _ => False
  | _ => True
  end.

End Js.

Import Js.

(** ** Glob patterns of the KEYS command *)

Module Glob.

Inductive item : Type :=
| One (c : ascii)
| Span (lo hi : ascii).

Inductive token : Type :=
| Star
| Any
| Lit (c : ascii)
| Class (negated : bool) (items : list item).

(** The characters with a meaning of their own in a pattern. *)
Definition special (c : ascii) : bool :=
  (c =? "*")%char || (c =? "?")%char || (c =? "[")%char || (c =? "\")%char.

(** A pattern is read left to right: [*] and [?] are wildcards, a
    backslash takes the next character literally, [[...]] is a
    character class (optionally negated by a leading [^], with [a-z]
    spans and backslash escapes inside; a class left open at the end of
    the pattern is closed there). *)
Fixpoint tokens (p : string) : list token :=
  match p with
  | EmptyString => []
  | String c r =>
      if (c =? "*")%char then Star :: tokens r
      else if (c =? "?")%char then Any :: tokens r
      else if (c =? "\")%char then
        match r with
        | EmptyString => [Lit c]
        | String c' r' => Lit c' :: tokens r'
        end
      else if (c =? "[")%char then
        let class :=
          fix class (negated : bool) (acc : list item) (q : string)
            : list token :=
            match q with
            | EmptyString => [Class negated (rev acc)]
            | String d q' =>
                if (d =? "]")%char then Class negated (rev acc) :: tokens q'
                else if (d =? "\")%char then
                  match q' with
                  | EmptyString => class negated (One d :: acc) q'
                  | String x q'' => class negated (One x :: acc) q''
                  end
                else
                  match q' with
                  | String "-"%char (String hi q'') =>
                      class negated (Span d hi :: acc) q''
                  | _ => class negated (One d :: acc) q'
                  end
            end in
        match r with
        | String "^"%char r' => class true [] r'
        | _ => class false [] r
        end
      else Lit c :: tokens r
  end.

Definition code (c : ascii) : N := N_of_ascii c.

Definition in_item (c : ascii) (i : item) : bool :=
  match i with
  | One x => (x =? c)%char
  | Span lo hi =>
      let lo' := N.min (code lo) (code hi) in
      let hi' := N.max (code lo) (code hi) in
      (lo' <=? code c)%N && (code c <=? hi')%N
  end.

Fixpoint matches (ts : list token) (s : string) : bool :=
  match ts with
  | [] => match s with EmptyString => true | _ => false end
  | Star :: ts' =>
      (fix star (s : string) : bool :=
         matches ts' s ||
         match s with
         | EmptyString => false
         | String _ s' => star s'
         end) s
  | Any :: ts' =>
      match s with
      | EmptyString => false
      | String _ s' => matches ts' s'
      end
  | Lit c :: ts' =>
      match s with
      | EmptyString => false
      | String x s' => (c =? x)%char && matches ts' s'
      end
  | Class negated items :: ts' =>
      match s with
      | EmptyString => false
      | String x s' =>
          xorb negated (existsb (in_item x) items) && matches ts' s'
      end
  end.

(** [glob pattern key]: does KEYS [pattern] list [key]? *)
Definition glob (pattern key : string) : bool :=
  matches (tokens pattern) key.

(** A string free of the special characters. *)
Fixpoint plain (s : string) : bool :=
  match s with
  | EmptyString => true
  | String c r => negb (special c) && plain r
  end.

End Glob.

(** ** The Redis client

    The module never looks inside the client it is given: it sends SET,
    GET, DEL and KEYS and reads the [(err, value)] pair handed to its
    callback.  The client is modelled by what is observable through those
    four commands. *)

Module Redis.

(** The arguments [(err, value)] of a node-style callback: an error and
    an [undefined] value, or [null] and the reply. *)
Inductive callback (A : Type) : Type :=
| Failure (e : string)
| Success (v : A).
Arguments Failure {A} e.
Arguments Success {A} v.

Definition err {A} (cb : callback A) : option string :=
  match cb with
  | Failure e => Some e
  | Success _ => None
  end.

(** [None] stands for [undefined]. *)
Definition value {A} (cb : callback A) : option A :=
  match cb with
  | Failure _ => None
  | Success v => Some v
  end.

(** The state behind a client.
    - [db]: the keyspace of the selected database.
    - [faults]: what happens to the commands to come, one entry per
      command sent, [true] for a command that is answered by an error
      (connection lost, server refusing writes, ...) and has no effect;
      past the end of the list every command is served.
    - [rejects_absent]: how the client treats an [undefined] or [null]
      argument.  The release of the client is not pinned in the
      sources; older releases send the text ["undefined"] / ["null"],
      newer ones answer the command with an error without sending it. *)
Record storage : Type := Storage {
  db : gmap string string;
  faults : list bool;
  rejects_absent : bool
}.

(** A client on keyspace [d] whose commands are all served. *)
Definition connect (d : gmap string string) : storage :=
  {| db := d; faults := []; rejects_absent := false |}.

(** An asynchronous computation: it runs against the client and
    resolves to a value; [await] is sequencing. *)
Definition Async (A : Type) : Type := storage → A * storage.

#[global] Instance Async_ret : MRet Async := λ A a st, (a, st).
#[global] Instance Async_bind : MBind Async :=
  λ A B k m st, let '(a, st') := m st in k a st'.

(** Is the next command sent going to be answered by an error? *)
Definition next_fault (st : storage) : bool :=
  match faults st with
  | f :: _ => f
  | [] => false
  end.

(** The first [n] commands to come are served. *)
Definition served (n : nat) (st : storage) : bool :=
  forallb negb (take n (faults st)).

(** The client after one command was sent: the keyspace is [d], one
    entry of [faults] is used up. *)
Definition advance (d : gmap string string) (st : storage) : storage :=
  {| db := d; faults := tail (faults st);
     rejects_absent := rejects_absent st |}.

(** Send one command: [exec] is its effect on the keyspace when the
    server runs it. *)
Definition send {A} (exec : gmap string string → callback A * gmap string string)
  : Async (callback A) :=
  λ st,
    if next_fault st then
      (Failure "connection lost", advance (db st) st)
    else
      let '(cb, d) := exec (db st) in
      (cb, advance d st).

(** The text a client sends for an argument, if it sends the command. *)
Definition bulk (strict : bool) (v : Js.value) : option string :=
  match v with
  | Str s => Some s
  | _ => if strict then None else Some (to_string v)
  end.

(** [SET key value]: replies the status [OK]. *)
Definition set (key : string) (v : Js.value) : Async (callback string) :=
  λ st,
    match bulk (rejects_absent st) v with
    | Some s => send (λ d, (Success "OK", <[key := s]> d)) st
    | None => (Failure "invalid argument type", st)
    end.

(** [GET key]: replies the stored string, or [null]. *)
Definition get (key : string) : Async (callback Js.value) :=
  send (λ d, (Success (match d !! key with
                       | Some s => Str s
                       | None => Null
                       end), d)).

(** Remove the keys one after the other, counting those that existed. *)
Fixpoint remove (ks : list string) (d : gmap string string)
  : Z * gmap string string :=
  match ks with
  | [] => (0, d)
  | k :: ks' =>
      let '(n, d') := remove ks' (delete k d) in
      ((if bool_decide (is_Some (d !! k)) then 1 else 0) + n, d')
  end.

(** [DEL key [key ...]]: replies the number of keys removed.  The
    client takes one key or an array of keys; without any key the
    server refuses the command. *)
Definition del (ks : list string) : Async (callback Z) :=
  match ks with
  | [] => send (λ d, (Failure "ERR wrong number of arguments for 'del' command", d))
  | _ => send (λ d, let '(n, d') := remove ks d in (Success n, d'))
  end.

(** [KEYS pattern]: replies the keys that match the glob pattern. *)
Definition keys (pattern : string) : Async (callback (list string)) :=
  send (λ d, (Success (List.filter (Glob.glob pattern) (map_to_list d).*1), d)).

End Redis.

Import Redis.

(** ** Key utils *)

Definition buildBotmaticKey (integrationId botmaticId : Js.value) : string :=
  to_string integrationId +:+ ":b:" +:+ to_string botmaticId.

Definition buildExternalKey (integrationId externalId : Js.value) : string :=
  to_string integrationId +:+ ":e:" +:+ to_string externalId.

(** The two directions of an association, and the key of one side of it:
    [buildBotmaticKey] for the primary (Botmatic) id, [buildExternalKey]
    for the external one. *)
Inductive direction : Type := PRIMARY | EXTERNAL.

Definition encodeKey (scope : string) (d : direction) (id : string) : string :=
  match d with
  | PRIMARY => buildBotmaticKey (Str scope) (Str id)
  | EXTERNAL => buildExternalKey (Str scope) (Str id)
  end.

(** The readers of a key, of the one-key format
    [<integrationId>_<botmaticId>_<extId>] that the source keeps in a
    comment. *)

(** [key.split(sep)] for a one-character separator: the pieces of [key]
    between the occurrences of [sep], in order; at least one piece. *)
Fixpoint split_on (sep : ascii) (key : string) : list string :=
  match key with
  | EmptyString => [""]
  | String c r =>
      if (c =? sep)%char then "" :: split_on sep r
      else
        match split_on sep r with
        | piece :: pieces => String c piece :: pieces
        | [] => [String c ""]
        end
  end.

(** [pieces[n]]: [undefined] past the end of the array. *)
Definition at_index (pieces : list string) (n : nat) : Js.value :=
  match pieces !! n with
  | Some piece => Str piece
  | None => Undefined
  end.

Definition botmaticIdInKey (key : string) : Js.value :=
  at_index (split_on "_" key) 1.

Definition externalIdInKey (key : string) : Js.value :=
  at_index (split_on "_" key) 2.

Definition integrationIdInKey (key : string) : Js.value :=
  at_index (split_on "_" key) 0.

(** ** Internal functions *)

(** [value === "OK"] *)
Definition is_OK (v : option string) : bool :=
  match v with
  | Some s => String.eqb s "OK"
  | None => false
  end.

(** [value > 0]; [undefined > 0] is false. *)
Definition positive_count (v : option Z) : bool :=
  match v with
  | Some n => 0 <? n
  | None => false
  end.

Definition _saveId (key : string) (id : Js.value) : Async bool :=
  cb ← set key id;
  mret (is_OK (value cb)).

(** [resolve(value)]: the reply, or [undefined] after an error. *)
Definition _getId (key : string) : Async Js.value :=
  cb ← get key;
  mret (default Undefined (value cb)).

Definition _delId (key : string) : Async bool :=
  cb ← del [key];
  mret (positive_count (value cb)).

(** [values.reduce((acc, value) => acc === true && value === true, true)] *)
Definition _allPromisesTrue (promises : list bool) : Async bool :=
  mret (fold_left (λ acc value, Bool.eqb acc true && Bool.eqb value true)
                  promises true).

Definition _saveIds (integrationId botmaticId extId : Js.value) : Async bool :=
  let botmaticKey := buildBotmaticKey integrationId botmaticId in
  let externalKey := buildExternalKey integrationId extId in
  if truthy botmaticKey && truthy externalKey then
    p1 ← _saveId botmaticKey extId;
    p2 ← _saveId externalKey botmaticId;
    _allPromisesTrue [p1; p2]
  else
    mret false.

Definition _getBotmaticId (integrationId extId : Js.value) : Async Js.value :=
  let externalKey := buildExternalKey integrationId extId in
  _getId externalKey.

Definition _getExtId (integrationId botmaticId : Js.value) : Async Js.value :=
  let botmaticKey := buildBotmaticKey integrationId botmaticId in
  _getId botmaticKey.

Definition _deleteIds (integrationId botmaticId extId : Js.value) : Async bool :=
  let botmaticKey := buildBotmaticKey integrationId botmaticId in
  let externalKey := buildExternalKey integrationId extId in
  p1 ← _delId botmaticKey;
  p2 ← _delId externalKey;
  _allPromisesTrue [p1; p2].

(** The reply of the bulk delete is only logged. *)
Definition _deleteAllIds (integrationId : Js.value) : Async bool :=
  cb ← keys (to_string integrationId +:+ ":*");
  match cb with
  | Success keys =>
      _ ← del keys;
      mret true
  | Failure _ =>
      mret false
  end.

(** ** Module definition: the methods of [init storage] *)

Definition saveIds := _saveIds.
Definition getBotmaticId := _getBotmaticId.
Definition getExtId := _getExtId.
Definition deleteIds := _deleteIds.
Definition deleteAllIds := _deleteAllIds.



(** ** Vocabulary of the properties *)

(** A scope without the delimiter [:] of the keys. *)
Fixpoint no_colon (s : string) : bool :=
  match s with
  | EmptyString => true
  | String c r => negb (c =? ":")%char && no_colon r
  end.

(** A string without the separator [_] of the key readers. *)
Fixpoint no_underscore (s : string) : bool :=
  match s with
  | EmptyString => true
  | String c r => negb (c =? "_")%char && no_underscore r
  end.

(** ** Strings and keys *)

Lemma app_nil (t : string) : "" +:+ t = t.
Proof. reflexivity. Qed.

Lemma app_cons (c : ascii) (s t : string) : String c s +:+ t = String c (s +:+ t).
Proof. reflexivity. Qed.

Ltac norm_app := repeat first [rewrite app_nil | rewrite app_cons].
Ltac norm_app_in H := repeat first [rewrite app_nil in H | rewrite app_cons in H].

Section Strings.

Lemma append_inj (s a b : string) : s +:+ a = s +:+ b → a = b.
Proof.
  induction s as [|c s IH]; norm_app; [done|].
  intros [= H]. by apply IH.
Qed.

Lemma truthy_append (s c : string) (x : ascii) : truthy (s +:+ String x c) = true.
Proof. by destruct s. Qed.

(** Two colon-free scopes followed by the delimiter: the first colon of
    the key ends the scope. *)
Lemma scope_delimited (s s' r r' : string) :
  no_colon s = true → no_colon s' = true →
  s +:+ ":" +:+ r = s' +:+ ":" +:+ r' → s = s' ∧ r = r'.
Proof.
  revert s'. induction s as [|c s IH]; intros [|c' s'];
    norm_app; simpl.
  - by intros _ _ [= ->].
  - intros _ [Hc _]%andb_prop [= <- _]. done.
  - intros [Hc _]%andb_prop _ [= -> _]. done.
  - intros [_ Hs]%andb_prop [_ Hs']%andb_prop [= -> H].
    destruct (IH _ Hs Hs' H) as [-> ->]. done.
Qed.

End Strings.

Section Keys.

Lemma buildBotmaticKey_truthy (i b : Js.value) : truthy (buildBotmaticKey i b) = true.
Proof. unfold buildBotmaticKey. apply truthy_append. Qed.

Lemma buildExternalKey_truthy (i e : Js.value) : truthy (buildExternalKey i e) = true.
Proof. unfold buildExternalKey. apply truthy_append. Qed.

(** A forward key is never a reverse key of the same scope. *)
Lemma botmatic_external_distinct (i b e : Js.value) :
  buildBotmaticKey i b ≠ buildExternalKey i e.
Proof.
  unfold buildBotmaticKey, buildExternalKey. intros H%append_inj. discriminate.
Qed.

Lemma buildExternalKey_inj (i e1 e2 : Js.value) :
  buildExternalKey i e1 = buildExternalKey i e2 → to_string e1 = to_string e2.
Proof.
  unfold buildExternalKey. intros H%append_inj. by injection H.
Qed.

Lemma buildBotmaticKey_inj (i b1 b2 : Js.value) :
  buildBotmaticKey i b1 = buildBotmaticKey i b2 → to_string b1 = to_string b2.
Proof.
  unfold buildBotmaticKey. intros H%append_inj. by injection H.
Qed.

(** Every key of a scope is the scope, a colon, and a rest. *)
Lemma buildBotmaticKey_shape (s : string) (id : Js.value) :
  buildBotmaticKey (Str s) id = s +:+ ":" +:+ "b:" +:+ to_string id.
Proof. reflexivity. Qed.

Lemma buildExternalKey_shape (s : string) (id : Js.value) :
  buildExternalKey (Str s) id = s +:+ ":" +:+ "e:" +:+ to_string id.
Proof. reflexivity. Qed.

End Keys.

(** ** Glob patterns *)

Section GlobFacts.

Import Glob.

Lemma matches_star (s : string) : matches [Star] s = true.
Proof. induction s as [|c s IH]; simpl in *; [done|]. exact IH. Qed.

Lemma tokens_plain (c : ascii) (p : string) :
  special c = false → tokens (String c p) = Lit c :: tokens p.
Proof.
  unfold special. intros H.
  repeat (apply orb_false_elim in H as [H ?]).
  cbn [tokens]. by rewrite H, H2, H1, H0.
Qed.

(** A scope without special characters, then [:*], lists exactly the keys
    that start with the scope and a colon. *)
Lemma glob_scope (s k : string) :
  plain s = true → glob (s +:+ ":*") k = true ↔ ∃ r, k = s +:+ ":" +:+ r.
Proof.
  unfold glob. revert k. induction s as [|c s IH]; intros k Hs; norm_app.
  - change (tokens ":*") with [Lit ":"%char; Star].
    destruct k as [|x k]; cbn [matches].
    + split; [done | by intros [r ?]].
    + fold (matches [Star] k). rewrite matches_star, andb_true_r.
      rewrite Ascii.eqb_eq. split.
      * intros <-. by exists k.
      * by intros [r [= <- _]].
  - simpl in Hs. apply andb_prop in Hs as [Hc%negb_true_iff Hs].
    rewrite (tokens_plain _ _ Hc).
    destruct k as [|x k]; cbn [matches].
    + split; [done | by intros [r ?]].
    + rewrite andb_true_iff, Ascii.eqb_eq, (IH k Hs). split.
      * intros [<- [r ->]]. by exists r.
      * intros [r [= <- ->]]. split; [done | by exists r].
Qed.

End GlobFacts.

(** ** The client's commands *)

Section RedisFacts.

Implicit Types (st : storage) (d : gmap string string) (k key : string).

Lemma db_advance d st : db (advance d st) = d.
Proof. reflexivity. Qed.

Lemma served_S n d st :
  served (S n) st = negb (next_fault st) && served n (advance d st).
Proof.
  unfold served, next_fault. simpl.
  destruct (faults st) as [|f fs]; simpl; by rewrite ?take_nil.
Qed.

Lemma served_next n d st :
  served (S n) st = true → next_fault st = false ∧ served n (advance d st) = true.
Proof.
  rewrite (served_S n d). intros [H ?]%andb_prop. by apply negb_true_iff in H.
Qed.

Lemma send_served {A} (exec : gmap string string → callback A * gmap string string) st :
  next_fault st = false →
  send exec st = ((exec (db st)).1, advance (exec (db st)).2 st).
Proof. unfold send. intros ->. by destruct (exec (db st)). Qed.

Lemma send_fault {A} (exec : gmap string string → callback A * gmap string string) st :
  next_fault st = true →
  send exec st = (Failure "connection lost", advance (db st) st).
Proof. unfold send. by intros ->. Qed.

(** After DEL, the keys given are gone and the others are as before. *)
Lemma remove_lookup (ks : list string) d k :
  (remove ks d).2 !! k = if decide (k ∈ ks) then None else d !! k.
Proof.
  revert d. induction ks as [|a ks IH]; intros d; cbn [remove].
  - destruct (decide (k ∈ [])) as [H%elem_of_nil|]; done.
  - specialize (IH (delete a d)).
    destruct (remove ks (delete a d)) as [n d'] eqn:E. cbn [snd] in *.
    rewrite IH. destruct (decide (k = a)) as [->|Hne].
    + rewrite (decide_True (P := a ∈ a :: ks)) by (apply elem_of_cons; by left).
      destruct (decide (a ∈ ks)); [done | apply lookup_delete_eq].
    + rewrite lookup_delete_ne by done.
      destruct (decide (k ∈ ks)) as [Hin|Hin].
      * rewrite decide_True; [done | apply elem_of_cons; by right].
      * rewrite decide_False; [done |].
        intros [?|?]%elem_of_cons; done.
Qed.

(** KEYS lists the stored keys that match. *)
Lemma keys_listed (pattern : string) d k :
  k ∈ List.filter (Glob.glob pattern) (map_to_list d).*1 ↔
  is_Some (d !! k) ∧ Glob.glob pattern k = true.
Proof.
  rewrite list_elem_of_In, filter_In, <- list_elem_of_In, list_elem_of_fmap.
  split.
  - intros [[[k' v] [-> Hkv%elem_of_map_to_list]] Hg]. eauto.
  - intros [[v Hv] Hg]. split; [|done].
    exists (k, v). split; [done | by apply elem_of_map_to_list].
Qed.

End RedisFacts.

(** ** The internal functions, one command at a time *)

Section Internal.

Implicit Types (st : storage) (key : string) (v i b e : Js.value).

(** What SET stores when the command goes through. *)
Lemma bulk_to_string (strict : bool) v s : bulk strict v = Some s → s = to_string v.
Proof. destruct v, strict; simpl; congruence. Qed.

Lemma _saveId_reply key v st :
  _saveId key v st = (is_OK (value (set key v st).1), (set key v st).2).
Proof.
  unfold _saveId, mbind, Async_bind, mret, Async_ret.
  by destruct (set key v st).
Qed.

(** A save that resolves to [true] wrote the entry; one that resolves to
    [false] wrote nothing. *)
Lemma _saveId_db key v st :
  db (_saveId key v st).2 =
  if (_saveId key v st).1 then <[key := to_string v]> (db st) else db st.
Proof.
  rewrite _saveId_reply. unfold set.
  destruct (bulk (rejects_absent st) v) as [s|] eqn:Hb; simpl; [|done].
  apply bulk_to_string in Hb as ->. unfold send.
  by destruct (next_fault st).
Qed.

Lemma _saveId_served key (s : string) st :
  next_fault st = false →
  _saveId key (Str s) st = (true, advance (<[key := s]> (db st)) st).
Proof.
  intros H. rewrite _saveId_reply. unfold set. simpl.
  by rewrite send_served.
Qed.

Lemma _getId_served key st :
  next_fault st = false →
  _getId key st =
    (match db st !! key with Some s => Str s | None => Null end,
     advance (db st) st).
Proof.
  intros H. unfold _getId, mbind, Async_bind, mret, Async_ret, get.
  by rewrite send_served.
Qed.

Lemma _delId_reply key st :
  _delId key st = (positive_count (value (del [key] st).1), (del [key] st).2).
Proof.
  unfold _delId, mbind, Async_bind, mret, Async_ret.
  by destruct (del [key] st).
Qed.

Lemma _delId_served key st :
  next_fault st = false →
  _delId key st =
    (bool_decide (is_Some (db st !! key)), advance (delete key (db st)) st).
Proof.
  intros H. rewrite _delId_reply. unfold del. rewrite send_served by done.
  simpl. by case_bool_decide.
Qed.

Lemma _delId_fault key st :
  next_fault st = true → _delId key st = (false, advance (db st) st).
Proof.
  intros H. rewrite _delId_reply. unfold del. by rewrite send_fault.
Qed.

(** A delete resolves to [true] only for a key that was stored, and never
    touches another key. *)
Lemma _delId_true key st : (_delId key st).1 = true → is_Some (db st !! key).
Proof.
  destruct (next_fault st) eqn:H.
  - by rewrite _delId_fault.
  - rewrite _delId_served by done. simpl. by intros ?%bool_decide_eq_true.
Qed.

Lemma _delId_other key k st :
  k ≠ key → db (_delId key st).2 !! k = db st !! k.
Proof.
  intros Hne. destruct (next_fault st) eqn:H.
  - by rewrite _delId_fault.
  - rewrite _delId_served by done. simpl. by rewrite lookup_delete_ne.
Qed.

(** A DEL of one key that is answered without an error removed the key. *)
Lemma del_one_answered key st :
  err (del [key] st).1 = None → db (del [key] st).2 = delete key (db st).
Proof.
  unfold del. destruct (next_fault st) eqn:H.
  - by rewrite send_fault.
  - by rewrite send_served.
Qed.

Lemma del_one_other key k st :
  k ≠ key → db (del [key] st).2 !! k = db st !! k.
Proof.
  intros Hne. pose proof (_delId_other key k st Hne) as H.
  by rewrite _delId_reply in H.
Qed.

Lemma all_two (p1 p2 : bool) st : _allPromisesTrue [p1; p2] st = (p1 && p2, st).
Proof. by destruct p1, p2. Qed.

(** The guard of [_saveIds] never fails: both sets are always sent. *)
Lemma _saveIds_unfold i b e st :
  _saveIds i b e st =
    let r1 := _saveId (buildBotmaticKey i b) e st in
    let r2 := _saveId (buildExternalKey i e) b r1.2 in
    (r1.1 && r2.1, r2.2).
Proof.
  unfold _saveIds.
  rewrite buildBotmaticKey_truthy, buildExternalKey_truthy. simpl.
  unfold mbind, Async_bind.
  destruct (_saveId (buildBotmaticKey i b) e st) as [p1 st1]. simpl.
  destruct (_saveId (buildExternalKey i e) b st1) as [p2 st2]. simpl.
  apply all_two.
Qed.

Lemma _deleteIds_unfold i b e st :
  _deleteIds i b e st =
    let r1 := _delId (buildBotmaticKey i b) st in
    let r2 := _delId (buildExternalKey i e) r1.2 in
    (r1.1 && r2.1, r2.2).
Proof.
  unfold _deleteIds, mbind, Async_bind.
  destruct (_delId (buildBotmaticKey i b) st) as [p1 st1]. simpl.
  destruct (_delId (buildExternalKey i e) st1) as [p2 st2]. simpl.
  apply all_two.
Qed.

(** A save of two strings that resolves to [true] leaves both entries. *)
Lemma _saveIds_true_db (s p e : string) st st' :
  _saveIds (Str s) (Str p) (Str e) st = (true, st') →
  db st' = <[buildExternalKey (Str s) (Str e) := p]>
             (<[buildBotmaticKey (Str s) (Str p) := e]> (db st)).
Proof.
  rewrite _saveIds_unfold. cbv zeta.
  pose proof (_saveId_db (buildBotmaticKey (Str s) (Str p)) (Str e) st) as H1.
  destruct (_saveId (buildBotmaticKey (Str s) (Str p)) (Str e) st) as [p1 st1].
  pose proof (_saveId_db (buildExternalKey (Str s) (Str e)) (Str p) st1) as H2.
  simpl in *.
  destruct (_saveId (buildExternalKey (Str s) (Str e)) (Str p) st1) as [p2 st2].
  simpl in *. intros [= [-> ->]%andb_prop <-]. by rewrite H2, H1.
Qed.

(** A lookup served by the backend reads the keyspace. *)
Lemma getExtId_served i b st :
  next_fault st = false →
  (getExtId i b st).1 =
    match db st !! buildBotmaticKey i b with Some s => Str s | None => Null end.
Proof. intros H. unfold getExtId, _getExtId. by rewrite _getId_served. Qed.

Lemma getBotmaticId_served i e st :
  next_fault st = false →
  (getBotmaticId i e st).1 =
    match db st !! buildExternalKey i e with Some s => Str s | None => Null end.
Proof. intros H. unfold getBotmaticId, _getBotmaticId. by rewrite _getId_served. Qed.

End Internal.

(** ** Saving and looking up *)

(** C1.  When [saveIds s p e] resolves to [true] (for strings [s], [p],
    [e], the non-empty ones among them), a lookup that the backend serves
    on the resulting keyspace gives [e] for the Botmatic id [p]
    ([getExtId]) and [p] for the external id [e] ([getBotmaticId]). *)
Theorem saveIds_then_lookups (s p e : string) (st st' st2 : storage) :
  saveIds (Str s) (Str p) (Str e) st = (true, st') →
  db st2 = db st' → next_fault st2 = false →
  (getExtId (Str s) (Str p) st2).1 = Str e ∧
  (getBotmaticId (Str s) (Str e) st2).1 = Str p.
Proof.
  intros Hsave Hdb Hok. apply _saveIds_true_db in Hsave.
  rewrite getExtId_served, getBotmaticId_served by done.
  rewrite Hdb, Hsave. split.
  - rewrite lookup_insert_ne by (apply not_eq_sym, botmatic_external_distinct).
    by rewrite lookup_insert_eq.
  - by rewrite lookup_insert_eq.
Qed.

Lemma saveIds_then_lookups_witness :
  let st' := (saveIds (Str "0") (Str "123") (Str "234") (connect ∅)).2 in
  saveIds (Str "0") (Str "123") (Str "234") (connect ∅) = (true, st') ∧
  next_fault st' = false ∧
  (getExtId (Str "0") (Str "123") st').1 = Str "234" ∧
  (getBotmaticId (Str "0") (Str "234") st').1 = Str "123".
Proof.
  intros st'.
  assert (H : saveIds (Str "0") (Str "123") (Str "234") (connect ∅) = (true, st'))
    by (vm_compute; reflexivity).
  split; [exact H|]. split; [reflexivity|].
  exact (saveIds_then_lookups "0" "123" "234" (connect ∅) st' st' H eq_refl eq_refl).
Defined.

(** C10.  Saving [p] again with another external id does not retire the
    first reverse entry: after [saveIds s p e1] and [saveIds s p e2], both
    resolved to [true] and [e1 ≠ e2], [getBotmaticId s e1] still gives [p]
    while [getExtId s p] gives [e2], not [e1]. *)
Theorem resave_keeps_stale_reverse (s p e1 e2 : string) (st st1 st2 st3 : storage) :
  e1 ≠ e2 →
  saveIds (Str s) (Str p) (Str e1) st = (true, st1) →
  saveIds (Str s) (Str p) (Str e2) st1 = (true, st2) →
  db st3 = db st2 → next_fault st3 = false →
  (getBotmaticId (Str s) (Str e1) st3).1 = Str p ∧
  (getExtId (Str s) (Str p) st3).1 = Str e2 ∧
  (getExtId (Str s) (Str p) st3).1 ≠ Str e1.
Proof.
  intros Hne H1 H2 Hdb Hok.
  apply _saveIds_true_db in H1. apply _saveIds_true_db in H2.
  rewrite getExtId_served, getBotmaticId_served by done.
  rewrite Hdb, H2, H1.
  assert (Hk : buildExternalKey (Str s) (Str e2) ≠ buildExternalKey (Str s) (Str e1))
    by (intros H%buildExternalKey_inj; simpl in H; congruence).
  split; [|split].
  - rewrite lookup_insert_ne by done.
    rewrite lookup_insert_ne by apply botmatic_external_distinct.
    by rewrite lookup_insert_eq.
  - rewrite lookup_insert_ne by (apply not_eq_sym, botmatic_external_distinct).
    by rewrite lookup_insert_eq.
  - rewrite lookup_insert_ne by (apply not_eq_sym, botmatic_external_distinct).
    rewrite lookup_insert_eq. congruence.
Qed.

Lemma resave_keeps_stale_reverse_witness :
  let st1 := (saveIds (Str "0") (Str "123") (Str "234") (connect ∅)).2 in
  let st2 := (saveIds (Str "0") (Str "123") (Str "999") st1).2 in
  (getBotmaticId (Str "0") (Str "234") st2).1 = Str "123" ∧
  (getExtId (Str "0") (Str "123") st2).1 = Str "999" ∧
  (getExtId (Str "0") (Str "123") st2).1 ≠ Str "234".
Proof.
  intros st1 st2.
  apply (resave_keeps_stale_reverse "0" "123" "234" "999" (connect ∅) st1 st2 st2).
  - discriminate.
  - vm_compute; reflexivity.
  - vm_compute; reflexivity.
  - reflexivity.
  - reflexivity.
Defined.

(** ** Deleting a pair *)

(** Two deletes that the backend serves remove both keys. *)
Lemma deleteIds_db (i b e : Js.value) (st : storage) :
  served 2 st = true →
  db (deleteIds i b e st).2 =
    delete (buildExternalKey i e) (delete (buildBotmaticKey i b) (db st)).
Proof.
  intros H. unfold deleteIds. rewrite _deleteIds_unfold. cbv zeta.
  apply (served_next _ (delete (buildBotmaticKey i b) (db st))) in H as [H1 H].
  rewrite (_delId_served _ st H1). cbn [fst snd].
  apply (served_next _ ∅) in H as [H2 _].
  by rewrite _delId_served.
Qed.

(** C3.  Round trip: after [saveIds s p e] and then [deleteIds s p e],
    whose two deletes the backend serves, a served lookup gives [null]
    in both directions. *)
Theorem save_then_delete_absent (i b e : Js.value) (st st3 : storage) :
  let st1 := (saveIds i b e st).2 in
  let st2 := (deleteIds i b e st1).2 in
  served 2 st1 = true → db st3 = db st2 → next_fault st3 = false →
  (getExtId i b st3).1 = Null ∧ (getBotmaticId i e st3).1 = Null.
Proof.
  intros st1 st2 Hs Hdb Hok.
  rewrite getExtId_served, getBotmaticId_served by done.
  rewrite Hdb. unfold st2. rewrite deleteIds_db by done. split.
  - rewrite lookup_delete_ne by (apply not_eq_sym, botmatic_external_distinct).
    by rewrite lookup_delete_eq.
  - by rewrite lookup_delete_eq.
Qed.

Lemma save_then_delete_absent_witness :
  let st1 := (saveIds (Str "0") (Str "123") (Str "234") (connect ∅)).2 in
  let st2 := (deleteIds (Str "0") (Str "123") (Str "234") st1).2 in
  served 2 st1 = true ∧
  (getExtId (Str "0") (Str "123") st1).1 = Str "234" ∧
  (getExtId (Str "0") (Str "123") st2).1 = Null ∧
  (getBotmaticId (Str "0") (Str "234") st2).1 = Null.
Proof.
  intros st1 st2. split; [reflexivity|]. split; [vm_compute; reflexivity|].
  exact (save_then_delete_absent (Str "0") (Str "123") (Str "234") (connect ∅) st2
           eq_refl eq_refl eq_refl).
Defined.

(** C9, as amended.  [deleteIds] sends its two deletes whatever the
    keyspace holds and whatever the first one replies.  So after the
    call, for every keyspace it started from and whether it resolved to
    [true] or to [false], the forward key is not stored provided its DEL
    was answered without an error, and neither is the reverse key
    provided its DEL was answered without an error. *)
Theorem deleteIds_leaves_no_key (i b e : Js.value) (st : storage) :
  let r1 := del [buildBotmaticKey i b] st in
  let r2 := del [buildExternalKey i e] r1.2 in
  let st' := (deleteIds i b e st).2 in
  (err r1.1 = None → db st' !! buildBotmaticKey i b = None) ∧
  (err r2.1 = None → db st' !! buildExternalKey i e = None).
Proof.
  intros r1 r2 st'.
  assert (Hst : st' = r2.2).
  { unfold st', deleteIds. rewrite _deleteIds_unfold. cbv zeta.
    by rewrite !_delId_reply. }
  rewrite Hst. split.
  - intros H1. unfold r2.
    rewrite del_one_other by (apply botmatic_external_distinct).
    unfold r1. rewrite del_one_answered by done. apply lookup_delete_eq.
  - intros H2. unfold r2. rewrite del_one_answered by done.
    apply lookup_delete_eq.
Qed.

Lemma deleteIds_leaves_no_key_witness :
  let full := (saveIds (Str "0") (Str "123") (Str "234") (connect ∅)).2 in
  let half := connect {[ buildBotmaticKey (Str "0") (Str "123") := "234" ]} in
  ((deleteIds (Str "0") (Str "123") (Str "234") full).1 = true ∧
   db (deleteIds (Str "0") (Str "123") (Str "234") full).2
     !! buildBotmaticKey (Str "0") (Str "123") = None ∧
   db (deleteIds (Str "0") (Str "123") (Str "234") full).2
     !! buildExternalKey (Str "0") (Str "234") = None) ∧
  ((deleteIds (Str "0") (Str "123") (Str "234") half).1 = false ∧
   db (deleteIds (Str "0") (Str "123") (Str "234") half).2
     !! buildBotmaticKey (Str "0") (Str "123") = None).
Proof.
  intros full half. split; (split; [vm_compute; reflexivity|]).
  - split.
    + exact (proj1 (deleteIds_leaves_no_key (Str "0") (Str "123") (Str "234") full)
               eq_refl).
    + exact (proj2 (deleteIds_leaves_no_key (Str "0") (Str "123") (Str "234") full)
               eq_refl).
  - exact (proj1 (deleteIds_leaves_no_key (Str "0") (Str "123") (Str "234") half)
             eq_refl).
Defined.

(** C9, as stated, fails: a call that completes need not have removed
    its keys.  When the DEL of the forward key is answered by an error,
    [deleteIds] resolves to [false] and the forward entry is still
    stored. *)
Lemma deleteIds_failed_del_leaves_key :
  ¬ (∀ (i b e : Js.value) (st st' : storage) (r : bool),
       deleteIds i b e st = (r, st') →
       db st' !! buildBotmaticKey i b = None ∧
       db st' !! buildExternalKey i e = None).
Proof.
  intros H.
  pose (st := {| db := {[ "0:b:123" := "234"; "0:e:234" := "123" ]};
                 faults := [true]; rejects_absent := false |}).
  destruct (H (Str "0") (Str "123") (Str "234") st
              (deleteIds (Str "0") (Str "123") (Str "234") st).2 false)
    as [Hb _]; [vm_compute; reflexivity|].
  vm_compute in Hb. discriminate Hb.
Qed.

(** C4.  [deleteIds] resolves to [true] exactly when both DEL replies
    count at least one removed key.  In particular it resolves to [false]
    when the forward or the reverse entry is not stored: for a pair that
    does not exist, and for a pair of which one entry only exists. *)
Theorem deleteIds_true_iff (i b e : Js.value) (st : storage) :
  let r1 := del [buildBotmaticKey i b] st in
  let r2 := del [buildExternalKey i e] r1.2 in
  ((deleteIds i b e st).1 = true ↔
   ∃ n1 n2, r1.1 = Success n1 ∧ r2.1 = Success n2 ∧ 0 < n1 ∧ 0 < n2) ∧
  (db st !! buildBotmaticKey i b = None ∨ db st !! buildExternalKey i e = None →
   (deleteIds i b e st).1 = false).
Proof.
  intros r1 r2. unfold deleteIds. rewrite _deleteIds_unfold. cbv zeta.
  split.
  - rewrite !_delId_reply. cbn [fst snd]. fold r1. fold r2.
    rewrite andb_true_iff. split.
    + intros [H1 H2].
      destruct (r1.1) as [|n1]; [done|]. destruct (r2.1) as [|n2]; [done|].
      simpl in *. exists n1, n2. repeat split; [by apply Z.ltb_lt..].
    + intros (n1 & n2 & -> & -> & H1 & H2). simpl.
      split; by apply Z.ltb_lt.
  - intros Hmiss. apply not_true_is_false. cbn [fst].
    intros [H1 H2]%andb_prop.
    apply _delId_true in H1 as [v1 H1]. apply _delId_true in H2 as [v2 H2].
    rewrite _delId_other in H2 by (apply not_eq_sym, botmatic_external_distinct).
    destruct Hmiss; congruence.
Qed.

Lemma deleteIds_true_iff_witness :
  let half := connect {[ buildBotmaticKey (Str "0") (Str "123") := "234" ]} in
  db half !! buildExternalKey (Str "0") (Str "234") = None ∧
  (deleteIds (Str "0") (Str "123") (Str "234") half).1 = false ∧
  (deleteIds (Str "0") (Str "123") (Str "234") (connect ∅)).1 = false.
Proof.
  intros half. split; [reflexivity|]. split.
  - apply (proj2 (deleteIds_true_iff (Str "0") (Str "123") (Str "234") half)).
    right. reflexivity.
  - apply (proj2 (deleteIds_true_iff (Str "0") (Str "123") (Str "234") (connect ∅))).
    left. reflexivity.
Defined.

(** ** Saving a pair *)

(** C7.  [saveIds] resolves to [true] exactly when both SET replies are
    [OK].  When one of the two only is, it resolves to [false] and the
    entry written by the successful SET stays in the keyspace: nothing is
    rolled back. *)
Theorem saveIds_true_iff (i b e : Js.value) (st : storage) :
  let r1 := set (buildBotmaticKey i b) e st in
  let r2 := set (buildExternalKey i e) b r1.2 in
  let r := saveIds i b e st in
  (r.1 = true ↔ value r1.1 = Some "OK" ∧ value r2.1 = Some "OK") ∧
  (value r1.1 = Some "OK" → value r2.1 ≠ Some "OK" →
   r.1 = false ∧ db r.2 !! buildBotmaticKey i b = Some (to_string e)) ∧
  (value r1.1 ≠ Some "OK" → value r2.1 = Some "OK" →
   r.1 = false ∧ db r.2 !! buildExternalKey i e = Some (to_string b)).
Proof.
  intros r1 r2 r.
  assert (HOK : ∀ o : option string, is_OK o = true ↔ o = Some "OK").
  { intros [s|]; simpl; [|done]. rewrite String.eqb_eq. split; congruence. }
  assert (Hr : r = (is_OK (value r1.1) && is_OK (value r2.1), r2.2)).
  { unfold r, saveIds. rewrite _saveIds_unfold. cbv zeta.
    by rewrite !_saveId_reply. }
  pose proof (_saveId_db (buildBotmaticKey i b) e st) as D1.
  pose proof (_saveId_db (buildExternalKey i e) b r1.2) as D2.
  rewrite !_saveId_reply in D1, D2. cbn [fst snd] in D1, D2.
  fold r1 in D1. fold r2 in D2.
  rewrite Hr. cbn [fst snd]. split; [|split].
  - by rewrite andb_true_iff, !HOK.
  - intros H1%HOK H2. rewrite H1 in *.
    destruct (is_OK (value r2.1)) eqn:E2; [by apply HOK in E2|].
    split; [done|]. by rewrite D2, D1, lookup_insert_eq.
  - intros H1 H2%HOK. rewrite H2 in *.
    destruct (is_OK (value r1.1)) eqn:E1; [by apply HOK in E1|].
    split; [done|]. by rewrite D2, lookup_insert_eq.
Qed.

Lemma saveIds_true_iff_witness :
  let flaky := {| db := ∅; faults := [false; true]; rejects_absent := false |} in
  let r := saveIds (Str "0") (Str "123") (Str "234") flaky in
  r.1 = false ∧ db r.2 !! buildBotmaticKey (Str "0") (Str "123") = Some "234".
Proof.
  intros flaky r.
  apply (proj1 (proj2 (saveIds_true_iff (Str "0") (Str "123") (Str "234") flaky))).
  - reflexivity.
  - discriminate.
Defined.

(** No argument is ever turned down: with both SETs served, a save of
    any three strings resolves to [true]. *)
Lemma saveIds_never_rejects (s p e : string) (st : storage) :
  served 2 st = true → (saveIds (Str s) (Str p) (Str e) st).1 = true.
Proof.
  intros H. unfold saveIds. rewrite _saveIds_unfold. cbv zeta.
  apply (served_next _ (<[buildBotmaticKey (Str s) (Str p) := e]> (db st))) in H
    as [H1 H].
  rewrite (_saveId_served _ _ st H1). cbn [fst snd].
  apply (served_next _ ∅) in H as [H2 _].
  by rewrite _saveId_served.
Qed.

(** C8, at inputs that should not pass validation.  The guard of
    [_saveIds] tests the two keys, which are never empty, so a call with
    empty or absent ids goes to the backend like any other and resolves to
    [true] when both SETs are served. *)
Theorem saveIds_accepts_empty_arguments :
  (saveIds (Str "") (Str "") (Str "") (connect ∅)).1 = true ∧
  db (saveIds (Str "") (Str "") (Str "") (connect ∅)).2 !! ":b:" = Some "" ∧
  (saveIds Undefined (Str "123") (Str "234") (connect ∅)).1 = true ∧
  (saveIds Undefined Null Undefined (connect ∅)).1 = true.
Proof. repeat split; vm_compute; reflexivity. Qed.

(** ** Deleting a scope *)

(** C5.  [deleteAllIds] resolves to [true] exactly when KEYS is answered
    without an error: also when it lists no key, and also when the DEL
    that follows is answered by an error. *)
Theorem deleteAllIds_result (i : Js.value) (st : storage) :
  let scan := keys (to_string i +:+ ":*") st in
  let r := deleteAllIds i st in
  (r.1 = true ↔ err scan.1 = None) ∧
  (r.1 = false ↔ err scan.1 ≠ None) ∧
  (value scan.1 = Some [] → r.1 = true) ∧
  (∀ ks, value scan.1 = Some ks → err (del ks scan.2).1 ≠ None → r.1 = true).
Proof.
  intros scan r. unfold r, deleteAllIds, _deleteAllIds, mbind, Async_bind.
  fold scan. destruct scan as [[msg|ks] st1]; cbn [fst snd err value].
  - repeat split; done.
  - destruct (del ks st1) as [cb st2]. cbn [fst].
    repeat split; done.
Qed.

Lemma deleteAllIds_result_witness :
  let flaky :=
    {| db := {[ buildBotmaticKey (Str "0") (Str "123") := "234" ]};
       faults := [false; true]; rejects_absent := false |} in
  (value (keys "0:*" (connect ∅)).1 = Some [] ∧
   (deleteAllIds (Str "0") (connect ∅)).1 = true) ∧
  (err (del ["0:b:123"] (keys "0:*" flaky).2).1 ≠ None ∧
   (deleteAllIds (Str "0") flaky).1 = true).
Proof.
  intros flaky. split; split.
  - reflexivity.
  - apply (proj1 (proj2 (proj2 (deleteAllIds_result (Str "0") (connect ∅))))).
    reflexivity.
  - discriminate.
  - apply (proj2 (proj2 (proj2 (deleteAllIds_result (Str "0") flaky))) ["0:b:123"]).
    + reflexivity.
    + discriminate.
Defined.

(** ** The key encoding *)

(** C2, as amended.  Over scopes that contain no colon the encoding is
    injective: equal keys come from equal (scope, direction, id) triples,
    whatever the ids are. *)
Theorem encodeKey_injective (s1 s2 i1 i2 : string) (d1 d2 : direction) :
  no_colon s1 = true → no_colon s2 = true →
  encodeKey s1 d1 i1 = encodeKey s2 d2 i2 →
  (s1, d1, i1) = (s2, d2, i2).
Proof.
  intros H1 H2 Heq.
  destruct d1, d2; unfold encodeKey in Heq;
    rewrite ?buildBotmaticKey_shape, ?buildExternalKey_shape in Heq;
    destruct (scope_delimited _ _ _ _ H1 H2 Heq) as [-> Hr];
    simpl in Hr; norm_app_in Hr; by simplify_eq.
Qed.

Lemma encodeKey_injective_witness :
  no_colon "0" = true ∧
  (encodeKey "0" PRIMARY "123" = encodeKey "0" PRIMARY "123" →
   ("0", PRIMARY, "123") = ("0", PRIMARY, "123")).
Proof.
  split; [reflexivity|].
  exact (encodeKey_injective "0" "0" "123" "123" PRIMARY PRIMARY eq_refl eq_refl).
Defined.

(** C2, as stated, fails: a colon inside a scope or an id moves the
    boundary between them, within one direction and across the two. *)
Lemma encodeKey_collision :
  ¬ (∀ (s1 s2 i1 i2 : string) (d1 d2 : direction),
       s1 ≠ "" → i1 ≠ "" → s2 ≠ "" → i2 ≠ "" →
       encodeKey s1 d1 i1 = encodeKey s2 d2 i2 →
       (s1, d1, i1) = (s2, d2, i2)).
Proof.
  intros H.
  specialize (H "a:b" "a" "p" "b:p" PRIMARY PRIMARY).
  discriminate H; [discriminate.. | reflexivity].
Qed.

(** ** Deleting a scope: the keyspace afterwards *)

Lemma del_lookup (ks : list string) (st : storage) (k : string) :
  next_fault st = false →
  db (del ks st).2 !! k = if decide (k ∈ ks) then None else db st !! k.
Proof.
  intros H. destruct ks as [|a ks].
  - unfold del. rewrite send_served by done. cbn [fst snd]. rewrite db_advance.
    destruct (decide (k ∈ [])) as [Hin%elem_of_nil|]; done.
  - unfold del. rewrite send_served by done. cbn [snd]. rewrite db_advance.
    rewrite <- remove_lookup. by destruct (remove (a :: ks) (db st)).
Qed.

(** With KEYS and DEL served, the keys that match the pattern of the
    scope are gone and the others are as before. *)
Lemma deleteAllIds_lookup (i : Js.value) (st : storage) (k : string) :
  served 2 st = true →
  db (deleteAllIds i st).2 !! k =
    if Glob.glob (to_string i +:+ ":*") k then None else db st !! k.
Proof.
  intros H. apply (served_next _ (db st)) in H as [H1 H].
  apply (served_next _ ∅) in H as [H2 _].
  unfold deleteAllIds, _deleteAllIds, mbind, Async_bind, mret, Async_ret, keys.
  rewrite send_served by done. cbv beta iota zeta delta [fst snd].
  set (ks := List.filter _ _).
  pose proof (del_lookup ks (advance (db st) st) k H2) as Hd.
  destruct (del ks (advance (db st) st)) as [cb st2]. cbn [fst snd] in *.
  rewrite Hd, db_advance.
  pose proof (keys_listed (to_string i +:+ ":*") (db st) k) as Hk. fold ks in Hk.
  destruct (Glob.glob (to_string i +:+ ":*") k) eqn:Hg.
  - destruct (decide (k ∈ ks)) as [|Hout]; [done|].
    destruct (db st !! k) as [v|] eqn:Hv; [|done].
    exfalso. apply Hout, Hk. eauto.
  - destruct (decide (k ∈ ks)) as [Hin|]; [|done].
    apply Hk in Hin as [_ ?]. done.
Qed.

(** C6, as amended.  For a scope [s] without a special character of the
    glob patterns, and with KEYS and DEL served: after [deleteAllIds s] no
    key of [s] is stored, in either direction, so that every lookup in [s]
    gives [null]; and when neither [s] nor another scope [s'] contains a
    colon, the keys of [s'] are as they were. *)
Theorem deleteAllIds_scope (s : string) (st : storage) :
  Glob.plain s = true → served 2 st = true →
  let st' := (deleteAllIds (Str s) st).2 in
  (∀ (d : direction) (id : string), db st' !! encodeKey s d id = None) ∧
  (∀ (id : string) (st3 : storage),
     db st3 = db st' → next_fault st3 = false →
     (getExtId (Str s) (Str id) st3).1 = Null ∧
     (getBotmaticId (Str s) (Str id) st3).1 = Null) ∧
  (∀ (s' : string) (d : direction) (id : string),
     s' ≠ s → no_colon s = true → no_colon s' = true →
     db st' !! encodeKey s' d id = db st !! encodeKey s' d id).
Proof.
  intros Hp Hs st'.
  assert (Hgone : ∀ d id, db st' !! encodeKey s d id = None).
  { intros d id. unfold st'. rewrite deleteAllIds_lookup by done. simpl.
    assert (Glob.glob (s +:+ ":*") (encodeKey s d id) = true) as ->; [|done].
    apply glob_scope; [done|].
    destruct d; [exists ("b:" +:+ id) | exists ("e:" +:+ id)]; reflexivity. }
  split; [exact Hgone|]. split.
  - intros id st3 Hdb Hok.
    rewrite getExtId_served, getBotmaticId_served by done. rewrite Hdb.
    change (buildBotmaticKey (Str s) (Str id)) with (encodeKey s PRIMARY id).
    change (buildExternalKey (Str s) (Str id)) with (encodeKey s EXTERNAL id).
    by rewrite !Hgone.
  - intros s' d id Hne Hc Hc'. unfold st'. rewrite deleteAllIds_lookup by done.
    simpl. destruct (Glob.glob (s +:+ ":*") (encodeKey s' d id)) eqn:Hg; [|done].
    exfalso. apply glob_scope in Hg as [r Hr]; [|done]. apply Hne.
    destruct d; unfold encodeKey in Hr;
      rewrite ?buildBotmaticKey_shape, ?buildExternalKey_shape in Hr;
      by destruct (scope_delimited _ _ _ _ Hc' Hc Hr).
Qed.

Lemma deleteAllIds_scope_witness :
  let st1 := (saveIds (Str "0") (Str "123") (Str "234") (connect ∅)).2 in
  let st2 := (saveIds (Str "1") (Str "123") (Str "567") st1).2 in
  let st' := (deleteAllIds (Str "0") st2).2 in
  db st2 !! encodeKey "0" PRIMARY "123" = Some "234" ∧
  db st' !! encodeKey "0" PRIMARY "123" = None ∧
  db st' !! encodeKey "0" EXTERNAL "234" = None ∧
  db st' !! encodeKey "1" PRIMARY "123" = Some "567".
Proof.
  intros st1 st2 st'.
  pose proof (deleteAllIds_scope "0" st2 eq_refl eq_refl) as (Hgone & _ & Hkept).
  split; [reflexivity|]. split; [apply Hgone|]. split; [apply Hgone|].
  unfold st'.
  rewrite (Hkept "1" PRIMARY "123"); [reflexivity | discriminate | reflexivity..].
Defined.

(** C6, as stated, fails.  The pattern [<scope>:*] also lists the keys of
    every scope that starts with [<scope>:] : clearing scope ["a"] removes
    the pair saved under scope ["a:b"].  A special character in the scope
    is read as a pattern: clearing scope ["*"] clears every scope, and
    clearing scope ["[x]"] leaves the keys of that very scope. *)
Lemma deleteAllIds_crosses_scopes :
  let st := (saveIds (Str "a:b") (Str "1") (Str "2") (connect ∅)).2 in
  let st' := (saveIds (Str "[x]") (Str "1") (Str "2") (connect ∅)).2 in
  ("a:b" ≠ "a" ∧
   (getExtId (Str "a:b") (Str "1") st).1 = Str "2" ∧
   (deleteAllIds (Str "a") st).1 = true ∧
   (getExtId (Str "a:b") (Str "1") (deleteAllIds (Str "a") st).2).1 = Null ∧
   (getBotmaticId (Str "a:b") (Str "2") (deleteAllIds (Str "a") st).2).1 = Null) ∧
  (getExtId (Str "a:b") (Str "1") (deleteAllIds (Str "*") st).2).1 = Null ∧
  ((deleteAllIds (Str "[x]") st').1 = true ∧
   (getExtId (Str "[x]") (Str "1") (deleteAllIds (Str "[x]") st').2).1 = Str "2").
Proof. repeat split; try discriminate; vm_compute; reflexivity. Qed.

(** ** The suite of [spec/appSpec.js], on a fresh database

    The suite passes the numbers 0, 123 and 234; the template literals
    and the client turn them into the strings used here. *)

Example appSpec_run :
  let run :=
    ok1 ← saveIds (Str "0") (Str "123") (Str "234");
    extId ← getExtId (Str "0") (Str "123");
    botmaticId ← getBotmaticId (Str "0") (Str "234");
    ok2 ← deleteIds (Str "0") (Str "123") (Str "234");
    gone ← getExtId (Str "0") (Str "123");
    mret (ok1, extId, botmaticId, ok2, gone) in
  (run (connect ∅)).1 = (true, Str "234", Str "123", true, Null).
Proof. vm_compute. reflexivity. Qed.

(** ** A backend that fails a command

    The error of a command is not rolled back nor retried: a DEL that is
    answered by an error leaves its key, and the call resolves to
    [false]. *)
Example deleteIds_partial_failure :
  let st1 := (saveIds (Str "0") (Str "123") (Str "234") (connect ∅)).2 in
  let flaky := {| db := db st1; faults := [true]; rejects_absent := false |} in
  let r := deleteIds (Str "0") (Str "123") (Str "234") flaky in
  r.1 = false ∧
  db r.2 !! buildBotmaticKey (Str "0") (Str "123") = Some "234" ∧
  db r.2 !! buildExternalKey (Str "0") (Str "234") = None.
Proof. repeat split; vm_compute; reflexivity. Qed.

(** ** The readers of a key *)

Section Readers.

Lemma no_underscore_app (a b : string) :
  no_underscore (a +:+ b) = no_underscore a && no_underscore b.
Proof.
  induction a as [|c a IH]; norm_app; simpl; [done|].
  by rewrite IH, andb_assoc.
Qed.

Lemma split_on_plain (s : string) :
  no_underscore s = true → split_on "_" s = [s].
Proof.
  induction s as [|c s IH]; simpl; [done|].
  intros [Hc Hs]%andb_prop. apply negb_true_iff in Hc.
  by rewrite Hc, (IH Hs).
Qed.

Lemma split_on_piece (s r : string) :
  no_underscore s = true →
  split_on "_" (s +:+ "_" +:+ r) = s :: split_on "_" r.
Proof.
  change ("_" +:+ r) with (String "_" r).
  induction s as [|c s IH]; norm_app; simpl; [done|].
  intros [Hc Hs]%andb_prop. apply negb_true_iff in Hc.
  by rewrite Hc, (IH Hs).
Qed.

(** The first piece stops at the first separator, if there is one. *)
Lemma split_on_head (key : string) :
  ∃ h t, split_on "_" key = h :: t ∧ no_underscore h = true ∧
         ((t = [] ∧ key = h) ∨ ∃ rest, key = h +:+ "_" +:+ rest ∧ t = split_on "_" rest).
Proof.
  induction key as [|c key (h & t & Hsp & Hh & Hshape)].
  - exists "", []. repeat split; [by left].
  - simpl. destruct (Ascii.eqb_spec c "_") as [->|Hc].
    + exists "", (split_on "_" key). repeat split. right. by exists key.
    + rewrite Hsp. exists (String c h), t. split; [done|]. split.
      * simpl. rewrite Hh, andb_true_r. apply negb_true_iff.
        by apply Ascii.eqb_neq.
      * destruct Hshape as [[-> ->]|(rest & -> & ->)]; [by left|].
        right. by exists rest.
Qed.

End Readers.

(** X1.  The three readers undo the one-key format
    [<integrationId>_<botmaticId>_<extId>]: on a key made of three ids
    without underscore, joined by underscores, they give back the three
    ids. *)
Theorem readers_round_trip (i b e : string) :
  no_underscore i = true → no_underscore b = true → no_underscore e = true →
  let key := i +:+ "_" +:+ b +:+ "_" +:+ e in
  integrationIdInKey key = Str i ∧
  botmaticIdInKey key = Str b ∧
  externalIdInKey key = Str e.
Proof.
  intros Hi Hb He key.
  unfold integrationIdInKey, botmaticIdInKey, externalIdInKey, key.
  by rewrite (split_on_piece i _ Hi), (split_on_piece b _ Hb), (split_on_plain e He).
Qed.

Lemma readers_round_trip_witness :
  no_underscore "0" = true ∧
  integrationIdInKey "0_123_234" = Str "0" ∧
  botmaticIdInKey "0_123_234" = Str "123" ∧
  externalIdInKey "0_123_234" = Str "234".
Proof.
  split; [reflexivity|].
  exact (readers_round_trip "0" "123" "234" eq_refl eq_refl eq_refl).
Defined.

(** X2.  The readers do not read the keys that the module writes: on a
    forward or reverse key whose scope and id hold no underscore,
    [integrationIdInKey] gives the whole key and the two others give
    [undefined]. *)
Theorem readers_on_written_keys (i id : Js.value) (d : direction) :
  no_underscore (to_string i) = true → no_underscore (to_string id) = true →
  let key := match d with
             | PRIMARY => buildBotmaticKey i id
             | EXTERNAL => buildExternalKey i id
             end in
  integrationIdInKey key = Str key ∧
  botmaticIdInKey key = Undefined ∧
  externalIdInKey key = Undefined.
Proof.
  intros Hi Hid key.
  assert (Hkey : no_underscore key = true).
  { unfold key, buildBotmaticKey, buildExternalKey.
    destruct d; rewrite !no_underscore_app, Hi, Hid; reflexivity. }
  unfold integrationIdInKey, botmaticIdInKey, externalIdInKey.
  by rewrite (split_on_plain key Hkey).
Qed.

Lemma readers_on_written_keys_witness :
  no_underscore "0" = true ∧
  integrationIdInKey (buildBotmaticKey (Str "0") (Str "123")) = Str "0:b:123" ∧
  botmaticIdInKey (buildBotmaticKey (Str "0") (Str "123")) = Undefined ∧
  externalIdInKey (buildBotmaticKey (Str "0") (Str "123")) = Undefined.
Proof.
  split; [reflexivity|].
  exact (readers_on_written_keys (Str "0") (Str "123") PRIMARY eq_refl eq_refl).
Defined.

(** X3.  [integrationIdInKey] always gives a string: the part of the key
    before its first underscore, or the whole key when it has none.
    [botmaticIdInKey] gives [undefined] exactly on the keys without
    underscore. *)
Theorem readers_first_pieces (key : string) :
  (∃ r, integrationIdInKey key = Str r ∧ no_underscore r = true ∧
        (key = r ∨ ∃ rest, key = r +:+ "_" +:+ rest)) ∧
  (botmaticIdInKey key = Undefined ↔ no_underscore key = true).
Proof.
  destruct (split_on_head key) as (h & t & Hsp & Hh & Hshape).
  unfold integrationIdInKey, botmaticIdInKey, at_index. rewrite Hsp. simpl.
  split.
  - exists h. repeat split; [done|].
    destruct Hshape as [[_ ->]|(rest & -> & _)]; [by left | right; by exists rest].
  - destruct Hshape as [[-> ->]|(rest & -> & ->)].
    + by split.
    + destruct (split_on_head rest) as (h' & t' & -> & _). simpl.
      rewrite no_underscore_app. norm_app. simpl.
      rewrite andb_false_r. by split.
Qed.

(** ** More on the internal functions: what each leaves behind *)

Section Effects.

Implicit Types (st : storage) (key k : string) (i b e v : Js.value).

Lemma append_assoc (a b c : string) : (a +:+ b) +:+ c = a +:+ b +:+ c.
Proof. induction a as [|x a IH]; norm_app; [done | by rewrite IH]. Qed.

Lemma faults_advance (d : gmap string string) st :
  faults (advance d st) = tail (faults st).
Proof. reflexivity. Qed.

Lemma served_split (n m : nat) (l : list bool) :
  forallb negb (take (n + m) l) = true →
  forallb negb (take n l) = true ∧ forallb negb (take m (drop n l)) = true.
Proof.
  rewrite <- take_take_drop, forallb_app. apply andb_prop.
Qed.

(** Of [n + m] commands that are served, the first [n] are, and so are
    the [m] that follow them. *)
Lemma served_after (n m : nat) st st' :
  faults st' = drop n (faults st) →
  served (n + m) st = true → served n st = true ∧ served m st' = true.
Proof. unfold served. intros ->. apply served_split. Qed.

Lemma send_faults {A} (exec : gmap string string → callback A * gmap string string) st :
  faults (send exec st).2 = tail (faults st).
Proof.
  unfold send. destruct (next_fault st); [done|]. by destruct (exec (db st)).
Qed.

Lemma _getId_db key st : db (_getId key st).2 = db st.
Proof.
  unfold _getId, mbind, Async_bind, mret, Async_ret, get, send.
  by destruct (next_fault st).
Qed.

Lemma _getId_result key st (s : string) :
  (_getId key st).1 = Str s ↔ next_fault st = false ∧ db st !! key = Some s.
Proof.
  destruct (next_fault st) eqn:H.
  - unfold _getId, mbind, Async_bind, mret, Async_ret, get.
    rewrite send_fault by done. simpl. split; [done | by intros []].
  - rewrite _getId_served by done. simpl.
    destruct (db st !! key) as [s'|]; split; try done.
    + intros [= ->]. done.
    + intros [_ [= ->]]. done.
    + by intros [].
Qed.

Lemma _getId_fault key st : next_fault st = true → (_getId key st).1 = Undefined.
Proof.
  intros H. unfold _getId, mbind, Async_bind, mret, Async_ret, get.
  by rewrite send_fault.
Qed.

Lemma _delId_db key st :
  db (_delId key st).2 = if next_fault st then db st else delete key (db st).
Proof.
  destruct (next_fault st) eqn:H.
  - by rewrite _delId_fault.
  - by rewrite _delId_served.
Qed.

Lemma _delId_faults key st : faults (_delId key st).2 = tail (faults st).
Proof. rewrite _delId_reply. unfold del. apply send_faults. Qed.

Lemma _saveId_faults key (s : string) st :
  faults (_saveId key (Str s) st).2 = tail (faults st).
Proof. rewrite _saveId_reply. unfold set. simpl. apply send_faults. Qed.

Lemma saveIds_faults (s p e : string) st :
  faults (saveIds (Str s) (Str p) (Str e) st).2 = drop 2 (faults st).
Proof.
  unfold saveIds. rewrite _saveIds_unfold. cbv zeta. cbn [snd].
  rewrite !_saveId_faults. by destruct (faults st) as [|? [|? ?]].
Qed.

Lemma deleteIds_faults i b e st :
  faults (deleteIds i b e st).2 = drop 2 (faults st).
Proof.
  unfold deleteIds. rewrite _deleteIds_unfold. cbv zeta. cbn [snd].
  rewrite !_delId_faults. by destruct (faults st) as [|? [|? ?]].
Qed.

(** A save changes no key but its two. *)
Lemma saveIds_other_key i b e st k :
  k ≠ buildBotmaticKey i b → k ≠ buildExternalKey i e →
  db (saveIds i b e st).2 !! k = db st !! k.
Proof.
  intros Hb He. unfold saveIds. rewrite _saveIds_unfold. cbv zeta. cbn [snd].
  rewrite _saveId_db.
  destruct (_saveId (buildExternalKey i e) b _).1;
    rewrite ?lookup_insert_ne by done;
    rewrite _saveId_db;
    destruct (_saveId (buildBotmaticKey i b) e st).1;
    by rewrite ?lookup_insert_ne by done.
Qed.

(** What a pair delete leaves of the keyspace, whatever the backend
    answers. *)
Lemma deleteIds_lookup i b e st k :
  db (deleteIds i b e st).2 !! k = db st !! k ∨
  (db (deleteIds i b e st).2 !! k = None ∧
   (k = buildBotmaticKey i b ∨ k = buildExternalKey i e)).
Proof.
  unfold deleteIds. rewrite _deleteIds_unfold. cbv zeta. cbn [snd].
  rewrite !_delId_db.
  destruct (next_fault (_delId (buildBotmaticKey i b) st).2),
           (next_fault st); try by left.
  - destruct (decide (k = buildBotmaticKey i b)) as [->|].
    + right. rewrite lookup_delete_eq. auto.
    + left. by rewrite lookup_delete_ne.
  - destruct (decide (k = buildExternalKey i e)) as [->|].
    + right. rewrite lookup_delete_eq. auto.
    + left. by rewrite lookup_delete_ne.
  - destruct (decide (k = buildExternalKey i e)) as [->|].
    + right. rewrite lookup_delete_eq. auto.
    + rewrite lookup_delete_ne by done.
      destruct (decide (k = buildBotmaticKey i b)) as [->|].
      * right. rewrite lookup_delete_eq. auto.
      * left. by rewrite lookup_delete_ne.
Qed.

(** With both DELs served, a pair delete resolves to [true] exactly when
    both entries were stored. *)
Lemma deleteIds_served_result i b e st :
  served 2 st = true →
  (deleteIds i b e st).1 =
    bool_decide (is_Some (db st !! buildBotmaticKey i b)) &&
    bool_decide (is_Some (db st !! buildExternalKey i e)).
Proof.
  intros H. unfold deleteIds. rewrite _deleteIds_unfold. cbv zeta.
  apply (served_next _ (delete (buildBotmaticKey i b) (db st))) in H as [H1 H].
  rewrite (_delId_served _ st H1). cbn [fst snd].
  apply (served_next _ ∅) in H as [H2 _].
  rewrite _delId_served by done. cbn [fst]. rewrite db_advance.
  by rewrite lookup_delete_ne by apply botmatic_external_distinct.
Qed.

Lemma fold_all (ps : list bool) (acc : bool) :
  fold_left (λ acc value, Bool.eqb acc true && Bool.eqb value true) ps acc =
  acc && forallb id ps.
Proof.
  revert acc. induction ps as [|p ps IH]; intros acc; simpl.
  - by rewrite andb_true_r.
  - rewrite IH. by destruct acc, p.
Qed.

End Effects.

(** ** Lookups *)

(** X4.  A lookup never writes: after [getExtId] or [getBotmaticId] the
    keyspace is what it was, whether the GET was served or answered by an
    error. *)
Theorem lookups_read_only (i id : Js.value) (st : storage) :
  db (getExtId i id st).2 = db st ∧ db (getBotmaticId i id st).2 = db st.
Proof.
  unfold getExtId, _getExtId, getBotmaticId, _getBotmaticId.
  by rewrite !_getId_db.
Qed.

(** X5.  What a lookup resolves to.  It gives a string exactly when the
    GET is served and the key is stored, and then the stored string; a
    served GET on a missing key gives [null]; a GET answered by an error
    gives [undefined], whatever is stored. *)
Theorem lookup_result (i id : Js.value) (st : storage) :
  (∀ s : string,
     (getExtId i id st).1 = Str s ↔
     next_fault st = false ∧ db st !! buildBotmaticKey i id = Some s) ∧
  (∀ s : string,
     (getBotmaticId i id st).1 = Str s ↔
     next_fault st = false ∧ db st !! buildExternalKey i id = Some s) ∧
  (next_fault st = false → db st !! buildBotmaticKey i id = None →
   (getExtId i id st).1 = Null) ∧
  (next_fault st = false → db st !! buildExternalKey i id = None →
   (getBotmaticId i id st).1 = Null) ∧
  (next_fault st = true →
   (getExtId i id st).1 = Undefined ∧ (getBotmaticId i id st).1 = Undefined).
Proof.
  unfold getExtId, _getExtId, getBotmaticId, _getBotmaticId.
  split; [intros s; apply _getId_result|].
  split; [intros s; apply _getId_result|].
  split; [|split].
  - intros H Hk. by rewrite _getId_served, Hk.
  - intros H Hk. by rewrite _getId_served, Hk.
  - intros H. by rewrite !_getId_fault.
Qed.

Lemma lookup_result_witness :
  let flaky :=
    {| db := {[ buildBotmaticKey (Str "0") (Str "123") := "234" ]};
       faults := [true]; rejects_absent := false |} in
  (getExtId (Str "0") (Str "123") flaky).1 = Undefined ∧
  (getExtId (Str "0") (Str "123") (connect ∅)).1 = Null.
Proof.
  intros flaky. split.
  - exact (proj1 (proj2 (proj2 (proj2 (proj2
             (lookup_result (Str "0") (Str "123") flaky)))) eq_refl)).
  - exact (proj1 (proj2 (proj2 (lookup_result (Str "0") (Str "123") (connect ∅))))
             eq_refl eq_refl).
Defined.

(** ** What a save and a pair delete leave alone *)

(** X6.  [saveIds] changes no key but the forward and the reverse key of
    its arguments, and never removes a key: what was stored before is
    stored after, for every answer of the backend. *)
Theorem saveIds_frame (i b e : Js.value) (st : storage) (k : string) :
  (k ≠ buildBotmaticKey i b → k ≠ buildExternalKey i e →
   db (saveIds i b e st).2 !! k = db st !! k) ∧
  (is_Some (db st !! k) → is_Some (db (saveIds i b e st).2 !! k)).
Proof.
  split; [apply saveIds_other_key|].
  intros Hk. unfold saveIds. rewrite _saveIds_unfold. cbv zeta. cbn [snd].
  rewrite _saveId_db.
  destruct (_saveId (buildExternalKey i e) b _).1.
  - apply lookup_insert_is_Some'. right.
    rewrite _saveId_db. destruct (_saveId (buildBotmaticKey i b) e st).1; [|done].
    apply lookup_insert_is_Some'. by right.
  - rewrite _saveId_db. destruct (_saveId (buildBotmaticKey i b) e st).1; [|done].
    apply lookup_insert_is_Some'. by right.
Qed.

Lemma saveIds_frame_witness :
  let st := connect {[ "other" := "kept" ]} in
  db (saveIds (Str "0") (Str "123") (Str "234") st).2 !! "other" = Some "kept".
Proof.
  intros st.
  rewrite (proj1 (saveIds_frame (Str "0") (Str "123") (Str "234") st "other"));
    [reflexivity | discriminate | discriminate].
Defined.

(** X7.  [deleteIds] only removes, and only its two keys: an entry found
    after the call was there before with the same value, and every key
    other than the forward and the reverse key of the arguments is as it
    was, for every answer of the backend. *)
Theorem deleteIds_frame (i b e : Js.value) (st : storage) (k : string) :
  (k ≠ buildBotmaticKey i b → k ≠ buildExternalKey i e →
   db (deleteIds i b e st).2 !! k = db st !! k) ∧
  (∀ v : string, db (deleteIds i b e st).2 !! k = Some v → db st !! k = Some v).
Proof.
  destruct (deleteIds_lookup i b e st k) as [H|[H Hk]]; rewrite H.
  - by split.
  - split; [|done]. intros Hb He. by destruct Hk.
Qed.

Lemma deleteIds_frame_witness :
  let st := connect {[ "other" := "kept" ]} in
  db (deleteIds (Str "0") (Str "123") (Str "234") st).2 !! "other" = Some "kept".
Proof.
  intros st.
  rewrite (proj1 (deleteIds_frame (Str "0") (Str "123") (Str "234") st "other"));
    [reflexivity | discriminate | discriminate].
Defined.

(** X8.  With both DELs served, [deleteIds] resolves to [true] exactly
    when the forward and the reverse entry were both stored, whatever
    their values. *)
Theorem deleteIds_true_when_stored (i b e : Js.value) (st : storage) :
  served 2 st = true →
  ((deleteIds i b e st).1 = true ↔
   is_Some (db st !! buildBotmaticKey i b) ∧
   is_Some (db st !! buildExternalKey i e)).
Proof.
  intros H. rewrite deleteIds_served_result by done.
  by rewrite andb_true_iff, !bool_decide_eq_true.
Qed.

Lemma deleteIds_true_when_stored_witness :
  let st := connect {[ "0:b:123" := "anything"; "0:e:234" := "else" ]} in
  served 2 st = true ∧ (deleteIds (Str "0") (Str "123") (Str "234") st).1 = true.
Proof.
  intros st. split; [reflexivity|].
  apply (proj2 (deleteIds_true_when_stored (Str "0") (Str "123") (Str "234") st eq_refl)).
  split; eexists; reflexivity.
Defined.

(** X9.  Save then delete, as the suite does: when the four commands are
    served, [saveIds] of three strings resolves to [true] and the
    [deleteIds] of the same pair that follows resolves to [true]. *)
Theorem save_then_delete_true (s p e : string) (st : storage) :
  served 4 st = true →
  (saveIds (Str s) (Str p) (Str e) st).1 = true ∧
  (deleteIds (Str s) (Str p) (Str e) (saveIds (Str s) (Str p) (Str e) st).2).1 = true.
Proof.
  intros H.
  destruct (served_after 2 2 st _ (saveIds_faults s p e st) H) as [H1 H2].
  pose proof (saveIds_never_rejects s p e st H1) as Hr.
  split; [done|].
  destruct (saveIds (Str s) (Str p) (Str e) st) as [r st1] eqn:E.
  simpl in *. subst r. apply _saveIds_true_db in E.
  rewrite deleteIds_served_result by done. rewrite E.
  rewrite lookup_insert_ne by (apply not_eq_sym, botmatic_external_distinct).
  rewrite !lookup_insert_eq.
  by rewrite !bool_decide_eq_true_2 by eauto.
Qed.

Lemma save_then_delete_true_witness :
  served 4 (connect ∅) = true ∧
  (deleteIds (Str "0") (Str "123") (Str "234")
     (saveIds (Str "0") (Str "123") (Str "234") (connect ∅)).2).1 = true.
Proof.
  split; [reflexivity|].
  exact (proj2 (save_then_delete_true "0" "123" "234" (connect ∅) eq_refl)).
Defined.

(** X10.  Deleting a pair a second time: when the four DELs are served,
    the second [deleteIds] resolves to [false] and changes nothing. *)
Theorem deleteIds_twice (i b e : Js.value) (st : storage) :
  served 4 st = true →
  let st1 := (deleteIds i b e st).2 in
  (deleteIds i b e st1).1 = false ∧ db (deleteIds i b e st1).2 = db st1.
Proof.
  intros H st1.
  destruct (served_after 2 2 st _ (deleteIds_faults i b e st) H) as [H1 H2].
  fold st1 in H2.
  assert (Hb : db st1 !! buildBotmaticKey i b = None).
  { unfold st1. rewrite deleteIds_db by done.
    rewrite lookup_delete_ne by (apply not_eq_sym, botmatic_external_distinct).
    apply lookup_delete_eq. }
  assert (He : db st1 !! buildExternalKey i e = None).
  { unfold st1. rewrite deleteIds_db by done. apply lookup_delete_eq. }
  split.
  - rewrite deleteIds_served_result by done. rewrite Hb.
    rewrite bool_decide_eq_false_2; [done | by intros [? ?]].
  - rewrite deleteIds_db by done.
    rewrite (delete_id _ _ Hb). by apply delete_id.
Qed.

Lemma deleteIds_twice_witness :
  let st := (saveIds (Str "0") (Str "123") (Str "234") (connect ∅)).2 in
  served 4 st = true ∧
  (deleteIds (Str "0") (Str "123") (Str "234") st).1 = true ∧
  (deleteIds (Str "0") (Str "123") (Str "234")
     (deleteIds (Str "0") (Str "123") (Str "234") st).2).1 = false.
Proof.
  intros st. split; [reflexivity|]. split; [vm_compute; reflexivity|].
  exact (proj1 (deleteIds_twice (Str "0") (Str "123") (Str "234") st eq_refl)).
Defined.

(** ** Saving again *)

(** X11.  Saving the same pair again changes nothing: when both saves of
    three strings resolve to [true], the keyspace after the second is the
    keyspace after the first. *)
Theorem saveIds_idempotent (s p e : string) (st st1 st2 : storage) :
  saveIds (Str s) (Str p) (Str e) st = (true, st1) →
  saveIds (Str s) (Str p) (Str e) st1 = (true, st2) →
  db st2 = db st1.
Proof.
  intros H1 H2. apply _saveIds_true_db in H1. apply _saveIds_true_db in H2.
  rewrite H2, H1. apply map_eq. intros k.
  destruct (decide (k = buildExternalKey (Str s) (Str e))) as [->|He].
  - by rewrite !lookup_insert_eq.
  - destruct (decide (k = buildBotmaticKey (Str s) (Str p))) as [->|Hb].
    + rewrite !(lookup_insert_ne _ (buildExternalKey (Str s) (Str e))) by done.
      by rewrite !lookup_insert_eq.
    + by repeat (rewrite lookup_insert_ne by done).
Qed.

Lemma saveIds_idempotent_witness :
  let st1 := (saveIds (Str "0") (Str "123") (Str "234") (connect ∅)).2 in
  let st2 := (saveIds (Str "0") (Str "123") (Str "234") st1).2 in
  db st2 = db st1.
Proof.
  intros st1 st2.
  apply (saveIds_idempotent "0" "123" "234" (connect ∅) st1 st2);
    vm_compute; reflexivity.
Defined.

(** X12.  Saving an external id again with another Botmatic id does not
    retire the first forward entry: after [saveIds s p1 e] and
    [saveIds s p2 e], both resolved to [true] and [p1 ≠ p2],
    [getExtId s p1] still gives [e] while [getBotmaticId s e] gives [p2],
    not [p1]. *)
Theorem resave_keeps_stale_forward (s p1 p2 e : string) (st st1 st2 st3 : storage) :
  p1 ≠ p2 →
  saveIds (Str s) (Str p1) (Str e) st = (true, st1) →
  saveIds (Str s) (Str p2) (Str e) st1 = (true, st2) →
  db st3 = db st2 → next_fault st3 = false →
  (getExtId (Str s) (Str p1) st3).1 = Str e ∧
  (getBotmaticId (Str s) (Str e) st3).1 = Str p2 ∧
  (getBotmaticId (Str s) (Str e) st3).1 ≠ Str p1.
Proof.
  intros Hne H1 H2 Hdb Hok.
  apply _saveIds_true_db in H1. apply _saveIds_true_db in H2.
  rewrite getExtId_served, getBotmaticId_served by done.
  rewrite Hdb, H2, H1.
  assert (Hk : buildBotmaticKey (Str s) (Str p2) ≠ buildBotmaticKey (Str s) (Str p1))
    by (intros H%buildBotmaticKey_inj; simpl in H; congruence).
  split; [|split].
  - rewrite lookup_insert_ne by (apply not_eq_sym, botmatic_external_distinct).
    rewrite lookup_insert_ne by done.
    rewrite lookup_insert_ne by (apply not_eq_sym, botmatic_external_distinct).
    by rewrite lookup_insert_eq.
  - by rewrite lookup_insert_eq.
  - rewrite lookup_insert_eq. congruence.
Qed.

Lemma resave_keeps_stale_forward_witness :
  let st1 := (saveIds (Str "0") (Str "123") (Str "234") (connect ∅)).2 in
  let st2 := (saveIds (Str "0") (Str "999") (Str "234") st1).2 in
  (getExtId (Str "0") (Str "123") st2).1 = Str "234" ∧
  (getBotmaticId (Str "0") (Str "234") st2).1 = Str "999" ∧
  (getBotmaticId (Str "0") (Str "234") st2).1 ≠ Str "123".
Proof.
  intros st1 st2.
  apply (resave_keeps_stale_forward "0" "123" "999" "234" (connect ∅) st1 st2 st2).
  - discriminate.
  - vm_compute; reflexivity.
  - vm_compute; reflexivity.
  - reflexivity.
  - reflexivity.
Defined.

(** X13.  Deleting with the wrong partner.  After a pair [(p, e)] was
    saved, [deleteIds s p e'] with another external id [e'], its two DELs
    served, removes the forward entry of [p] and leaves the reverse entry
    of [e]: [getExtId s p] gives [null] while [getBotmaticId s e] still
    gives [p].  When nothing is stored for [e'] the call resolves to
    [false]. *)
Theorem deleteIds_wrong_partner (s p e e' : string) (st st1 st3 : storage) :
  e' ≠ e →
  saveIds (Str s) (Str p) (Str e) st = (true, st1) →
  served 2 st1 = true →
  let r := deleteIds (Str s) (Str p) (Str e') st1 in
  db st3 = db r.2 → next_fault st3 = false →
  (getExtId (Str s) (Str p) st3).1 = Null ∧
  (getBotmaticId (Str s) (Str e) st3).1 = Str p ∧
  (db st1 !! buildExternalKey (Str s) (Str e') = None → r.1 = false).
Proof.
  intros Hne Hsave Hs r Hdb Hok. apply _saveIds_true_db in Hsave.
  assert (Hk : buildExternalKey (Str s) (Str e') ≠ buildExternalKey (Str s) (Str e))
    by (intros H%buildExternalKey_inj; simpl in H; congruence).
  rewrite getExtId_served, getBotmaticId_served by done.
  rewrite Hdb. unfold r. rewrite deleteIds_db by done.
  split; [|split].
  - rewrite lookup_delete_ne by (apply not_eq_sym, botmatic_external_distinct).
    by rewrite lookup_delete_eq.
  - rewrite lookup_delete_ne by done.
    rewrite lookup_delete_ne by apply botmatic_external_distinct.
    by rewrite Hsave, lookup_insert_eq.
  - intros Hmiss. rewrite deleteIds_served_result by done. rewrite Hmiss.
    rewrite (bool_decide_eq_false_2 (is_Some None)) by (by intros [? ?]).
    apply andb_false_r.
Qed.

Lemma deleteIds_wrong_partner_witness :
  let st1 := (saveIds (Str "0") (Str "123") (Str "234") (connect ∅)).2 in
  let r := deleteIds (Str "0") (Str "123") (Str "999") st1 in
  served 2 st1 = true ∧
  (getExtId (Str "0") (Str "123") r.2).1 = Null ∧
  (getBotmaticId (Str "0") (Str "234") r.2).1 = Str "123" ∧
  r.1 = false.
Proof.
  intros st1 r. split; [reflexivity|].
  pose proof (deleteIds_wrong_partner "0" "123" "234" "999" (connect ∅) st1 r.2)
    as H.
  destruct H as (H1 & H2 & H3);
    [discriminate | vm_compute; reflexivity | reflexivity..|].
  split; [exact H1|]. split; [exact H2|]. apply H3. reflexivity.
Defined.

(** ** Scopes *)

Section Scopes.

(** No key of a colon-free scope is a key of another colon-free scope. *)
Lemma other_scope_key (s s' : string) (d : direction) (id : string) (x : Js.value) :
  no_colon s = true → no_colon s' = true → s' ≠ s →
  encodeKey s' d id ≠ buildBotmaticKey (Str s) x ∧
  encodeKey s' d id ≠ buildExternalKey (Str s) x.
Proof.
  intros Hs Hs' Hne. split; intros Heq; apply Hne;
    destruct d; unfold encodeKey in Heq;
    rewrite ?buildBotmaticKey_shape, ?buildExternalKey_shape in Heq;
    by destruct (scope_delimited _ _ _ _ Hs' Hs Heq).
Qed.

End Scopes.

(** X14.  Two scopes without colon do not see each other: a [saveIds] or
    a [deleteIds] in scope [s], with any ids and for every answer of the
    backend, leaves every key of another scope [s'] as it was. *)
Theorem scopes_isolated (s s' : string) (p e : Js.value) (d : direction)
    (id : string) (st : storage) :
  no_colon s = true → no_colon s' = true → s' ≠ s →
  db (saveIds (Str s) p e st).2 !! encodeKey s' d id = db st !! encodeKey s' d id ∧
  db (deleteIds (Str s) p e st).2 !! encodeKey s' d id = db st !! encodeKey s' d id.
Proof.
  intros Hs Hs' Hne.
  destruct (other_scope_key s s' d id p Hs Hs' Hne) as [Hp _].
  destruct (other_scope_key s s' d id e Hs Hs' Hne) as [_ He].
  split; [by apply saveIds_other_key|].
  destruct (deleteIds_lookup (Str s) p e st (encodeKey s' d id)) as [H|[_ [H|H]]];
    done.
Qed.

Lemma scopes_isolated_witness :
  let st := (saveIds (Str "1") (Str "123") (Str "567") (connect ∅)).2 in
  db st !! encodeKey "1" PRIMARY "123" = Some "567" ∧
  db (saveIds (Str "0") (Str "123") (Str "234") st).2 !! encodeKey "1" PRIMARY "123"
    = Some "567" ∧
  db (deleteIds (Str "0") (Str "123") (Str "234") st).2 !! encodeKey "1" PRIMARY "123"
    = Some "567".
Proof.
  intros st.
  pose proof (scopes_isolated "0" "1" (Str "123") (Str "234") PRIMARY "123" st
                eq_refl eq_refl) as [H1 H2]; [discriminate|].
  split; [reflexivity|]. split; [by rewrite H1 | by rewrite H2].
Defined.

(** X15.  Within one scope, whatever the scope is, the two directions and
    the ids never share a key: equal keys of the same scope have the same
    direction and the same id. *)
Theorem encodeKey_injective_in_scope (s i1 i2 : string) (d1 d2 : direction) :
  encodeKey s d1 i1 = encodeKey s d2 i2 → d1 = d2 ∧ i1 = i2.
Proof.
  destruct d1, d2; unfold encodeKey, buildBotmaticKey, buildExternalKey;
    intros H%append_inj; simpl in H; norm_app_in H; by simplify_eq.
Qed.

Lemma encodeKey_injective_in_scope_witness :
  encodeKey "a:b" PRIMARY "1" = encodeKey "a:b" PRIMARY "1" ∧
  (PRIMARY = PRIMARY ∧ "1" = "1").
Proof.
  split; [reflexivity|].
  exact (encodeKey_injective_in_scope "a:b" "1" "1" PRIMARY PRIMARY eq_refl).
Defined.

(** X16.  An id that holds the delimiter is read under another scope: a
    pair saved in scope [s] for the Botmatic id [t:b:p] answers the
    lookup of the Botmatic id [p] in scope [s:b:t]. *)
Theorem save_leaks_into_longer_scope (s t p e : string) (st st' st2 : storage) :
  saveIds (Str s) (Str (t +:+ ":b:" +:+ p)) (Str e) st = (true, st') →
  db st2 = db st' → next_fault st2 = false →
  (getExtId (Str (s +:+ ":b:" +:+ t)) (Str p) st2).1 = Str e.
Proof.
  intros Hsave Hdb Hok. apply _saveIds_true_db in Hsave.
  rewrite getExtId_served by done. rewrite Hdb, Hsave.
  assert (buildBotmaticKey (Str (s +:+ ":b:" +:+ t)) (Str p) =
          buildBotmaticKey (Str s) (Str (t +:+ ":b:" +:+ p))) as ->.
  { unfold buildBotmaticKey. simpl. by rewrite !append_assoc. }
  rewrite lookup_insert_ne by (apply not_eq_sym, botmatic_external_distinct).
  by rewrite lookup_insert_eq.
Qed.

Lemma save_leaks_into_longer_scope_witness :
  let st' := (saveIds (Str "a") (Str "x:b:1") (Str "2") (connect ∅)).2 in
  (getExtId (Str "a:b:x") (Str "1") st').1 = Str "2".
Proof.
  intros st'.
  apply (save_leaks_into_longer_scope "a" "x" "1" "2" (connect ∅) st' st');
    [vm_compute; reflexivity | reflexivity..].
Defined.

(** ** Joining the results *)

(** X17.  [_allPromisesTrue] resolves to [true] exactly when every value
    of the list is [true] — so also for the empty list — and sends
    nothing to the backend. *)
Theorem _allPromisesTrue_all (promises : list bool) (st : storage) :
  ((_allPromisesTrue promises st).1 = true ↔ ∀ v, v ∈ promises → v = true) ∧
  (_allPromisesTrue promises st).2 = st.
Proof.
  unfold _allPromisesTrue, mret, Async_ret. simpl. split; [|done].
  rewrite fold_all. simpl. rewrite forallb_forall. split.
  - intros H v Hv%list_elem_of_In. by apply H.
  - intros H v Hv%list_elem_of_In. by apply H.
Qed.

(** ** Deleting a scope: every scope, every answer of the backend *)

Section DeleteAll.

Implicit Types (st : storage) (i : Js.value) (k : string).

Lemma del_fault (ks : list string) st :
  next_fault st = true → db (del ks st).2 = db st.
Proof. intros H. unfold del. destruct ks; by rewrite send_fault. Qed.

(** A DEL that is answered by an error removed nothing. *)
Lemma del_failed (ks : list string) st :
  err (del ks st).1 ≠ None → db (del ks st).2 = db st.
Proof.
  destruct (next_fault st) eqn:H; [intros _; by apply del_fault|].
  unfold del. destruct ks as [|a ks]; rewrite send_served by done; [done|].
  cbn [fst]. by destruct (remove (a :: ks) (db st)).
Qed.

Lemma deleteAllIds_unserved i st :
  served 2 st = false → db (deleteAllIds i st).2 = db st.
Proof.
  rewrite (served_S 1 (db st)), (served_S 0 ∅). unfold served at 1. simpl.
  rewrite andb_true_r. intros H.
  unfold deleteAllIds, _deleteAllIds, mbind, Async_bind, mret, Async_ret, keys.
  destruct (next_fault st) eqn:H1.
  - by rewrite send_fault.
  - simpl in H. apply negb_false_iff in H.
    rewrite send_served by done. cbv beta iota zeta delta [fst snd].
    set (ks := List.filter _ _).
    pose proof (del_fault ks _ H) as Hd.
    destruct (del ks (advance (db st) st)) as [cb st2]. by simpl in *.
Qed.

(** What [deleteAllIds] leaves of the keyspace, whatever the backend
    answers: all of it, or all of it but the keys that match. *)
Lemma deleteAllIds_cases i st k :
  db (deleteAllIds i st).2 !! k = db st !! k ∨
  (db (deleteAllIds i st).2 !! k = None ∧
   Glob.glob (to_string i +:+ ":*") k = true).
Proof.
  destruct (served 2 st) eqn:H.
  - rewrite deleteAllIds_lookup by done.
    destruct (Glob.glob (to_string i +:+ ":*") k); [by right | by left].
  - left. by rewrite deleteAllIds_unserved.
Qed.

End DeleteAll.

(** X18.  [deleteAllIds] only removes, and only keys that match its
    pattern: for every scope and every answer of the backend, an entry
    found after the call was there before with the same value, and a key
    that [<scope>:*] does not match is as it was. *)
Theorem deleteAllIds_only_removes (i : Js.value) (st : storage) (k : string) :
  (∀ v : string,
     db (deleteAllIds i st).2 !! k = Some v → db st !! k = Some v) ∧
  (Glob.glob (to_string i +:+ ":*") k = false →
   db (deleteAllIds i st).2 !! k = db st !! k).
Proof.
  destruct (deleteAllIds_cases i st k) as [H|[H Hg]]; rewrite H.
  - by split.
  - split; [done | congruence].
Qed.

Lemma deleteAllIds_only_removes_witness :
  let st := (saveIds (Str "1") (Str "123") (Str "567") (connect ∅)).2 in
  Glob.glob "0:*" "1:b:123" = false ∧
  db (deleteAllIds (Str "0") st).2 !! "1:b:123" = Some "567".
Proof.
  intros st. split; [reflexivity|].
  rewrite (proj2 (deleteAllIds_only_removes (Str "0") st "1:b:123") eq_refl).
  reflexivity.
Defined.

(** X19.  A failed [deleteAllIds] leaves the keyspace as it was, and only
    a failed KEYS is reported: when KEYS is answered by an error the call
    resolves to [false]; when KEYS lists the keys and the DEL is answered
    by an error, the call resolves to [true] with every key still
    stored. *)
Theorem deleteAllIds_failure_keeps_keys (i : Js.value) (st : storage) :
  let scan := keys (to_string i +:+ ":*") st in
  let r := deleteAllIds i st in
  (err scan.1 ≠ None → r.1 = false ∧ db r.2 = db st) ∧
  (∀ ks, value scan.1 = Some ks → err (del ks scan.2).1 ≠ None →
         r.1 = true ∧ db r.2 = db st).
Proof.
  intros scan r.
  assert (Hscan : db scan.2 = db st).
  { unfold scan, keys, send. by destruct (next_fault st). }
  unfold r, deleteAllIds, _deleteAllIds, mbind, Async_bind, mret, Async_ret.
  fold scan. destruct scan as [[msg|ks0] st1]; cbn [fst snd err value] in *.
  - split; [done|]. by intros ks.
  - split; [done|]. intros ks [= <-] Herr.
    pose proof (del_failed ks0 st1 Herr) as Hd.
    destruct (del ks0 st1) as [cb st2]. simpl in *. split; congruence.
Qed.

Lemma deleteAllIds_failure_keeps_keys_witness :
  let flaky :=
    {| db := {[ buildBotmaticKey (Str "0") (Str "123") := "234" ]};
       faults := [false; true]; rejects_absent := false |} in
  let r := deleteAllIds (Str "0") flaky in
  r.1 = true ∧ db r.2 = db flaky.
Proof.
  intros flaky r.
  apply (proj2 (deleteAllIds_failure_keeps_keys (Str "0") flaky) ["0:b:123"]).
  - reflexivity.
  - discriminate.
Defined.

(** X20.  After a [deleteAllIds] whose KEYS and DEL were served, for any
    scope, a KEYS of the same pattern lists nothing: no key that matches
    [<scope>:*] is left. *)
Theorem deleteAllIds_leaves_no_match (i : Js.value) (st st3 : storage) :
  served 2 st = true →
  db st3 = db (deleteAllIds i st).2 → next_fault st3 = false →
  (keys (to_string i +:+ ":*") st3).1 = Success [].
Proof.
  intros Hs Hdb Hok. unfold keys. rewrite send_served by done. cbn [fst].
  f_equal.
  destruct (List.filter _ _) as [|k l] eqn:E; [done|]. exfalso.
  assert (Hk : k ∈ List.filter (Glob.glob (to_string i +:+ ":*"))
                                (map_to_list (db st3)).*1)
    by (rewrite E; apply list_elem_of_here).
  apply keys_listed in Hk as [[v Hv] Hg].
  rewrite Hdb, deleteAllIds_lookup, Hg in Hv by done. done.
Qed.

Lemma deleteAllIds_leaves_no_match_witness :
  let st := (saveIds (Str "*") (Str "123") (Str "234") (connect ∅)).2 in
  served 2 st = true ∧
  (keys "*:*" st).1 ≠ Success [] ∧
  (keys "*:*" (deleteAllIds (Str "*") st).2).1 = Success [].
Proof.
  intros st. split; [reflexivity|]. split; [vm_compute; discriminate|].
  exact (deleteAllIds_leaves_no_match (Str "*") st _ eq_refl eq_refl eq_refl).
Defined.

(** ** A save that fails altogether *)

(** X21.  A save whose two SETs both fail changes nothing: it resolves
    to [false] and the keyspace is as it was. *)
Theorem saveIds_both_failed (i b e : Js.value) (st : storage) :
  let r1 := set (buildBotmaticKey i b) e st in
  let r2 := set (buildExternalKey i e) b r1.2 in
  value r1.1 ≠ Some "OK" → value r2.1 ≠ Some "OK" →
  (saveIds i b e st).1 = false ∧ db (saveIds i b e st).2 = db st.
Proof.
  intros r1 r2 H1 H2.
  assert (HOK : ∀ o : option string, o ≠ Some "OK" → is_OK o = false).
  { intros [s|] Ho; simpl; [|done]. apply String.eqb_neq. congruence. }
  unfold saveIds. rewrite _saveIds_unfold. cbv zeta. cbn [fst snd].
  pose proof (_saveId_db (buildBotmaticKey i b) e st) as D1.
  pose proof (_saveId_db (buildExternalKey i e) b
                (_saveId (buildBotmaticKey i b) e st).2) as D2.
  rewrite !_saveId_reply in *. cbn [fst snd] in *.
  fold r1 in D1, D2 |- *. fold r2 in D2 |- *.
  rewrite (HOK _ H1) in *. rewrite (HOK _ H2) in *.
  split; [done | congruence].
Qed.

Lemma saveIds_both_failed_witness :
  let down := {| db := {[ "other" := "kept" ]}; faults := [true; true];
                 rejects_absent := false |} in
  (saveIds (Str "0") (Str "123") (Str "234") down).1 = false ∧
  db (saveIds (Str "0") (Str "123") (Str "234") down).2 = db down.
Proof.
  intros down.
  apply (saveIds_both_failed (Str "0") (Str "123") (Str "234") down); discriminate.
Defined.
